(** * Navix: transitions and the Room environment

    A shallow embedding of [navix/transitions.py] and
    [navix/environments/room.py], with the properties the specification
    states about them.

    The Python code is written against JAX.  The JAX primitives it calls
    ([jax.lax.switch], [jax.lax.scan], [jax.vmap], array indexing, the
    splittable random keys) are embedded first, following the JAX
    documentation; then the data model; then the functions of the two
    modules, one Rocq definition per Python function, failures as [None]. *)

From Stdlib Require Import ZArith QArith Lia.
From stdpp Require Import base option list gmap fin_maps.

Local Open Scope Z_scope.

(** ** JAX primitives *)

Module jax.

(** [jnp.clip]-style clamping of an index into [lo, hi]. *)
Definition clamp (lo x hi : Z) : Z := Z.max lo (Z.min x hi).

(** Integer indexing [a[i]] of an array axis: a negative index counts
    from the end, and an index that is still out of bounds is clamped to
    the bounds; an axis of size 0 cannot be indexed (IndexError). *)
Definition getitem {A : Type} (a : list A) (i : Z) : option A :=
  let size := Z.of_nat (length a) in
  let i := if i <? 0 then i + size else i in
  a !! Z.to_nat (clamp 0 i (size - 1)).


(** [jax.lax.switch(index, branches, operand)]: applies exactly one
    branch; an out-of-bounds index is clamped into bounds; an empty
    sequence of branches is refused (ValueError).  The index is an int32
    scalar, read here as the integer it holds; an integer of a wider type
    is converted to int32 before the clamp, which this definition does not
    do, so what is stated about the branch selected by an index outside
    the table is stated for [int32] indices. *)
Definition switch {A B : Type}
    (index : Z) (branches : list (A → B)) (operand : A) : option B :=
  let n := Z.of_nat (length branches) in
  f ← branches !! Z.to_nat (clamp 0 index (n - 1));
  Some (f operand).

(** [jax.lax.scan(f, init, xs)]: threads the carry through [xs] from
    left to right and stacks the per-step outputs; a failure of the body
    aborts the scan. *)
Fixpoint scan {C X Y : Type}
    (f : C → X → option (C * Y)) (init : C) (xs : list X)
    : option (C * list Y) :=
  match xs with
  | [] => Some (init, [])
  | x :: xs' =>
      '(carry, y) ← f init x;
      '(final, ys) ← scan f carry xs';
      Some (final, y :: ys)
  end.

(** [jax.vmap(f)(xs, ys)]: maps [f] over the leading axis of both
    operands, which must agree on its size (ValueError otherwise); a
    failure of [f] aborts the whole map. *)
Definition vmap {A B C : Type}
    (f : A → B → option C) (xs : list A) (ys : list B) : option (list C) :=
  if decide (length xs = length ys)
  then mapM (λ xy, f xy.1 xy.2) (zip xs ys)
  else None.

(** Splittable random keys ([jax.random]).  The generator itself is
    library code; the program only relies on [split key n] returning [n]
    keys and on [randint key minval maxval] returning an integer of the
    half-open range. *)
Class PRNG (Key : Type) := {
  split : Key → nat → list Key;
  randint : Key → Z → Z → Z;
  split_length : ∀ k n, length (split k n) = n;
  randint_range : ∀ k lo hi, lo < hi → lo ≤ randint k lo hi < hi
}.

End jax.

(** ** Data model *)

(** A cell of the grid, as (row, column). *)
Definition Position : Type := Z * Z.

(** The map: a 2D integer array, 0 = walkable, nonzero = obstacle. *)
Definition Grid : Type := list (list Z).

(** [grid[tuple(position)]]: both axes indexed with JAX's rules. *)
Definition grid_at (grid : Grid) (position : Position) : option Z :=
  row ← jax.getitem grid position.1;
  jax.getitem row position.2.

Module Entities.
(** The kinds of entities, the keys of [State.entities]. *)
Inductive Kind := WALL | PLAYER | GOAL | KEY | DOOR | BALL.

#[export] Instance Kind_eq_dec : EqDecision Kind.
Proof. solve_decision. Defined.

Definition to_nat (k : Kind) : nat :=
  match k with
  | WALL => 0 | PLAYER => 1 | GOAL => 2 | KEY => 3 | DOOR => 4 | BALL => 5
  end%nat.

Definition of_nat (n : nat) : option Kind :=
  match n with
  | 0 => Some WALL | 1 => Some PLAYER | 2 => Some GOAL | 3 => Some KEY
  | 4 => Some DOOR | 5 => Some BALL | _ => None
  end%nat.

#[export] Instance Kind_countable : Countable Kind.
Proof. apply (inj_countable to_nat of_nat). by intros []. Defined.
End Entities.
Import Entities.

(** Modelled from the spec: the entity classes of [navix/entities.py] are
    not among the sources.  A batch of entities of one kind is a struct of
    arrays: parallel sequences of positions, directions and state tags. *)
Record Entity := mkEntity {
  position : list Position;
  direction : list Z;
  tag : list Z
}.

(** [batch.replace(position=...)]. *)
Definition replace_position (batch : Entity) (new_position : list Position)
    : Entity :=
  {| position := new_position;
     direction := direction batch;
     tag := tag batch |}.

(** One element of a batch, as the function mapped by [jax.vmap] sees it:
    every leaf has lost its leading axis. *)
Record Ball := mkBall {
  ball_position : Position;
  ball_direction : Z;
  ball_tag : Z
}.

(** [ball.replace(position=...)] on one element. *)
Definition ball_replace_position (ball : Ball) (new_position : Position)
    : Ball :=
  {| ball_position := new_position;
     ball_direction := ball_direction ball;
     ball_tag := ball_tag ball |}.

(** The elements of a batch along its leading axis; [jax.vmap] refuses a
    batch whose leaves disagree on the size of that axis. *)
Fixpoint unstack (ps : list Position) (ds ts : list Z) : option (list Ball) :=
  match ps, ds, ts with
  | [], [], [] => Some []
  | p :: ps', d :: ds', t :: ts' =>
      rest ← unstack ps' ds' ts'; Some (mkBall p d t :: rest)
  | _, _, _ => None
  end.

(** Modelled from the spec: [translate] of [navix/grid.py] is not among
    the sources.  It moves one cell in the given heading (0 east, 1 south,
    2 west, 3 north) and checks neither bounds nor obstacles. *)
Definition translate (position : Position) (direction : Z) : Position :=
  let '(row, col) := position in
  match jax.clamp 0 direction 3 with
  | 0 => (row, col + 1)
  | 1 => (row + 1, col)
  | 2 => (row, col - 1)
  | _ => (row - 1, col)
  end.

(** Modelled from the spec: [positions_equal] of [navix/grid.py] is not
    among the sources.  It is the per-entity-in-batch equality test, a
    boolean vector as long as the batch. *)
Definition positions_equal (a : list Position) (b : Position) : list bool :=
  (λ p, bool_decide (p = b)) <$> a.

(** Modelled from the spec: the class [State] of [navix/states.py] is not
    among the sources.  It aggregates the grid, the mapping from kind to
    entity batch, the random key and the step counter. *)
Record State (Key : Type) := mkState {
  grid : Grid;
  entities : gmap Kind Entity;
  key : Key;
  step_counter : Z
}.
Arguments mkState {Key} _ _ _ _.
Arguments grid {Key} _.
Arguments entities {Key} _.
Arguments key {Key} _.
Arguments step_counter {Key} _.

(** Modelled from the spec: [State.set_balls] of [navix/states.py] is not
    among the sources.  A replace-style update: the result holds the given
    batch under [Entities.BALL] and is otherwise the state it was given. *)
Definition set_balls {Key : Type} (state : State Key) (balls : Entity)
    : State Key :=
  {| grid := grid state;
     entities := <[BALL := balls]> (entities state);
     key := key state;
     step_counter := step_counter state |}.

(** [state.replace(key=...)]. *)
Definition replace_key {Key : Type} (state : State Key) (new_key : Key)
    : State Key :=
  {| grid := grid state;
     entities := entities state;
     key := new_key;
     step_counter := step_counter state |}.

(** ** navix/transitions.py *)

Section Transitions.
Context {Key : Type} `{!jax.PRNG Key}.

(** [deterministic_transition]: the action selected from the table,
    applied to the state. *)
Definition deterministic_transition
    (state : State Key) (action : Z)
    (actions_set : list (State Key → State Key)) : option (State Key) :=
  jax.switch action actions_set state.

(** The body of the loop of [_can_spawn_there], for the kind [kb.1] with
    batch [kb.2]: [obstructs] is element 0 of the batch-wide equality
    vector, and [jnp.any] of the negation of that one boolean is its
    negation.  An empty batch has no element 0 (IndexError). *)
Definition visit (ball_position : Position)
    (walkable : option bool) (kb : Kind * Entity) : option bool :=
  walkable ← walkable;
  obstructs ← jax.getitem (positions_equal (position kb.2) ball_position) 0;
  Some (walkable && negb obstructs).

(** [_can_spawn_there]: [walkable] starts from the grid cell under the ball
    and is refined once per kind of [state.entities].  Neither the
    conjunction nor the failure on an empty batch depends on the order in
    which the kinds are visited. *)
Definition _can_spawn_there (state : State Key) (ball : Ball) : option bool :=
  cell ← grid_at (grid state) (ball_position ball);
  foldl (visit (ball_position ball)) (Some (cell =? 0))
        (map_to_list (entities state)).

(** The body of the scan in [try_movements]: one attempt. *)
Definition try_one_direction (state : State Key) (ball : Ball)
    (carry : Position * bool) (key : Key)
    : option ((Position * bool) * Position) :=
  let '(current_pos, found_valid) := carry in
  let direction := jax.randint key 0 4 in
  let new_position := translate (ball_position ball) direction in
  let new_ball := ball_replace_position ball new_position in
  _can_spawn_there state new_ball ≫= λ can_move : bool,
  let next_pos :=
    if found_valid then current_pos
    else if can_move then new_position else current_pos in
  let next_valid := found_valid || can_move in
  Some ((next_pos, next_valid), next_pos).

(** [try_movements], local to [update_balls]: it closes over the state
    that [update_balls] received. *)
Definition try_movements (state : State Key) (ball : Ball) (key : Key)
    : option Position :=
  let attempt_keys := jax.split key 3 in
  '((final_pos, _), _) ←
    jax.scan (try_one_direction state ball)
             (ball_position ball, false) attempt_keys;
  Some final_pos.

(** [update_balls].  The mapped function is evaluated once per ball.  (JAX
    traces it once whatever the number of balls, so on a ball batch of size
    0 the IndexError of [_can_spawn_there] on that batch is raised as well;
    every statement below that the pass returns is made for states whose
    batches are non-empty.) *)
Definition update_balls (state : State Key) : option (State Key) :=
  match entities state !! BALL with
  | Some balls =>
      let keys := jax.split (key state) (length (position balls) + 1)%nat in
      rows ← unstack (position balls) (direction balls) (tag balls);
      new_position ← jax.vmap (try_movements state) rows (drop 1 keys);
      let balls := replace_position balls new_position in
      let state := set_balls state balls in
      key0 ← jax.getitem keys 0;
      Some (replace_key state key0)
  | None => Some state
  end.

(** [stochastic_transition]: the selected action, then the ball pass. *)
Definition stochastic_transition
    (state : State Key) (action : Z)
    (actions_set : list (State Key → State Key)) : option (State Key) :=
  state ← jax.switch action actions_set state;
  update_balls state.

Definition DEFAULT_TRANSITION := stochastic_transition.

End Transitions.

(** ** navix/environments/room.py *)

(** The cells of the grid in row-major order, and those of value 0. *)
Definition cells (grid : Grid) : list Position :=
  r ← seq 0 (length grid);
  c ← seq 0 (length (grid !!! r));
  [(Z.of_nat r, Z.of_nat c)].

Definition free_cells (grid : Grid) : list Position :=
  filter (λ p, grid_at grid p = Some 0) (cells grid).

(** Modelled from the spec: [random_positions] and [random_directions] of
    [navix/grid.py] are not among the sources.  [random_positions key grid n]
    samples [n] distinct walkable cells without replacement and fails with
    "insufficient free cells" exactly when [n] exceeds the number of
    walkable cells; [random_directions key n] returns [n] headings among the
    4 discrete directions. *)
Class GridSamplers (Key : Type) := {
  random_positions : Key → Grid → nat → option (list Position);
  random_directions : Key → nat → list Z;
  random_positions_sound : ∀ k g n ps,
    random_positions k g n = Some ps →
    length ps = n ∧ NoDup ps ∧ Forall (λ p, grid_at g p = Some 0) ps;
  random_positions_enough : ∀ k g n,
    is_Some (random_positions k g n) ↔ (n ≤ length (free_cells g))%nat;
  random_directions_sound : ∀ k n,
    length (random_directions k n) = n ∧
    Forall (λ d, 0 ≤ d < 4) (random_directions k n)
}.

Module Room.
Section Room.
Context {Key : Type} `{!jax.PRNG Key} {samplers : GridSamplers Key}.
(** The observation is opaque: it is produced by an external strategy. *)
Context {Observation : Type}.

(** Modelled from the spec: [Player] and [Goal] of [navix/components.py]
    are not among the sources; [reset] gives the player one position and
    a length-1 vector of headings, and the goals a batch of positions. *)
Record Player := mkPlayer {
  player_position : Position;
  player_direction : list Z
}.

Record Goal := mkGoal {
  goal_position : list Position
}.

(** The state class that [room.py] imports from [environment.py], as
    [reset] constructs it. *)
Record State := mkState {
  key : Key;
  player : Player;
  goals : Goal
}.

Record Timestep := mkTimestep {
  t : Z;
  observation : Observation;
  action : Z;
  reward : Q;
  step_type : Z;
  state : State
}.

(** Step types.  [reset] writes the literal 0, the step type of a
    timestep that is neither terminated nor truncated. *)
Definition ONGOING : Z := 0.

(** The no-op sentinel stored as the action of the first timestep. *)
Definition NOOP : Z := 0.

Record RenderingCache := mkRenderingCache {
  cache_grid : Grid
}.

(** The fields of the environment that [reset] reads. *)
Record Room := mkRoom {
  max_steps : Z;
  observation_fn : State → RenderingCache → Observation;
  cache : RenderingCache
}.

(** [self.observation(state)]: the configured observation strategy. *)
Definition Room_observation (self : Room) (state : State) : Observation :=
  observation_fn self state (cache self).

(** [Room.reset]. *)
Definition reset (self : Room) (key : Key) : option Timestep :=
  match jax.split key 3 with
  | [key; k1; k2] =>
      positions ← random_positions k1 (cache_grid (cache self)) 2;
      let direction := random_directions k2 1 in
      p0 ← jax.getitem positions 0;
      p1 ← jax.getitem positions 1;
      let player :=
        {| player_position := p0; player_direction := direction |} in
      let goal := {| goal_position := [p1] |} in
      let state := {| key := key; player := player; goals := goal |} in
      Some {| t := 0;
              observation := Room_observation self state;
              action := 0;
              reward := 0%Q;
              step_type := 0;
              state := state |}
  | _ => None
  end.

End Room.
End Room.

(** ** A scripted key

    A key whose draws and children are written down in advance: a tree
    whose node holds the integer its [randint] is computed from and the keys
    its [split] returns.  It is the generator used to run the definitions on
    concrete inputs. *)
Module Scripted.

#[local] Unset Elimination Schemes.
Inductive Tape := Node (draw : Z) (children : list Tape).
#[local] Set Elimination Schemes.

Definition blank : Tape := Node 0 [].

Definition tape_split (k : Tape) (n : nat) : list Tape :=
  let '(Node _ children) := k in take n (children ++ replicate n blank).

Definition tape_randint (k : Tape) (minval maxval : Z) : Z :=
  let '(Node draw _) := k in minval + draw `mod` (maxval - minval).

#[global] Instance tape_prng : jax.PRNG Tape.
Proof.
  refine {| jax.split := tape_split; jax.randint := tape_randint |}.
  - intros [d cs] n. cbn.
    rewrite length_take, length_app, length_replicate. lia.
  - intros [d cs] lo hi Hlt. cbn.
    pose proof (Z.mod_pos_bound d (hi - lo)). lia.
Defined.

(** A leaf that draws [d]. *)
Definition draws (d : Z) : Tape := Node d [].

(** The key of one ball: its three attempts draw [d1], [d2], [d3]. *)
Definition attempts (d1 d2 d3 : Z) : Tape :=
  Node 0 [draws d1; draws d2; draws d3].

End Scripted.

(** ** Predicates used in the statements *)

(** The leaves of a batch agree on the size of the leading axis. *)
Definition aligned (batch : Entity) : Prop :=
  length (direction batch) = length (position batch) ∧
  length (tag batch) = length (position batch).

(** Every array of the state can be indexed: the grid has a cell, and every
    batch is a non-empty struct of equal-length arrays. *)
Definition well_shaped {Key : Type} (state : State Key) : Prop :=
  grid state ≠ [] ∧
  Forall (λ row, row ≠ []) (grid state) ∧
  ∀ k batch, entities state !! k = Some batch →
    position batch ≠ [] ∧ aligned batch.

(** What one kind contributes to [_can_spawn_there]: whether the entity at
    index 0 of its batch is away from the tested position. *)
Definition first_clear (p : Position) (batch : Entity) : bool :=
  match position batch with
  | q :: _ => negb (bool_decide (q = p))
  | [] => true
  end.

(** The entity that attempt [key] of [ball] submits to the check. *)
Definition candidate {Key : Type} `{!jax.PRNG Key} (ball : Ball) (key : Key)
    : Ball :=
  ball_replace_position ball
    (translate (ball_position ball) (jax.randint key 0 4)).

(** The sub-keys of one pass of [update_balls]: [keys[0]] replaces the key
    of the state and [keys[1:]] are handed to the balls. *)
Definition pass_keys {Key : Type} `{!jax.PRNG Key}
    (state : State Key) (balls : Entity) : list Key :=
  jax.split (key state) (length (position balls) + 1)%nat.

(** A ball ends a pass where it was, or one cell away on a candidate that
    passed the check against the state the pass received. *)
Definition moved_within {Key : Type} `{!jax.PRNG Key}
    (state : State Key) (p p' : Position) : Prop :=
  p' = p ∨
  ∃ (ball : Ball) (a : Key),
    ball_position ball = p ∧
    _can_spawn_there state (candidate ball a) = Some true ∧
    p' = translate p (jax.randint a 0 4).

(** The two halves of the occupancy invariant.  Every entity of the store
    is taken as blocking. *)
Definition no_shared_position {Key : Type} (state : State Key) : Prop :=
  ∀ k1 batch1 i1 k2 batch2 i2 p,
    entities state !! k1 = Some batch1 → position batch1 !! i1 = Some p →
    entities state !! k2 = Some batch2 → position batch2 !! i2 = Some p →
    k1 = k2 ∧ i1 = i2.

Definition no_entity_on_obstacle {Key : Type} (state : State Key) : Prop :=
  ∀ k batch p,
    entities state !! k = Some batch → p ∈ position batch →
    grid_at (grid state) p = Some 0.

Definition occupancy_invariant {Key : Type} (state : State Key) : Prop :=
  no_shared_position state ∧ no_entity_on_obstacle state.

(** The states reached from an initial state by steps of the stochastic
    transition, each with some action index. *)
Inductive reachable {Key : Type} `{!jax.PRNG Key}
    (actions_set : list (State Key → State Key)) (init : State Key)
    : State Key → Prop :=
| reachable_reset : reachable actions_set init init
| reachable_step state action state' :
    reachable actions_set init state →
    stochastic_transition state action actions_set = Some state' →
    reachable actions_set init state'.

(** Two states that differ at most in the key they carry. *)
Definition same_but_key {Key : Type} (s1 s2 : State Key) : Prop :=
  grid s1 = grid s2 ∧
  entities s1 = entities s2 ∧
  step_counter s1 = step_counter s2.

(** An action whose result, key apart, does not depend on the key. *)
Definition seed_oblivious {Key : Type} (f : State Key → State Key) : Prop :=
  ∀ s1 s2, same_but_key s1 s2 → same_but_key (f s1) (f s2).

(** [well_shaped], as a test that can be run on a concrete state. *)
Definition well_shapedb {Key : Type} (state : State Key) : bool :=
  negb (bool_decide (grid state = [])) &&
  forallb (λ row, negb (bool_decide (row = []))) (grid state) &&
  forallb
    (λ kb : Kind * Entity,
       negb (bool_decide (position kb.2 = [])) &&
       bool_decide (length (direction kb.2) = length (position kb.2)) &&
       bool_decide (length (tag kb.2) = length (position kb.2)))
    (map_to_list (entities state)).

(** ** Concrete states *)
Module Examples.
Import Scripted.

(** A room whose interior is one cell, and one with a 3x3 interior. *)
Definition room3 : Grid := [[1; 1; 1]; [1; 0; 1]; [1; 1; 1]].

Definition room5 : Grid :=
  [[1; 1; 1; 1; 1];
   [1; 0; 0; 0; 1];
   [1; 0; 0; 0; 1];
   [1; 0; 0; 0; 1];
   [1; 1; 1; 1; 1]].

(** One ball walled in on all four sides; it draws east, south, west. *)
Definition boxed : State Tape :=
  mkState room3
    {[ BALL := mkEntity [(1, 1)] [0] [0] ]}
    (Node 0 [draws 5; attempts 0 1 2]) 0.

(** One ball in the top-left corner of the interior; it draws north (a
    wall), then east (free), then south. *)
Definition corner : State Tape :=
  mkState room5
    {[ BALL := mkEntity [(1, 1)] [0] [0] ]}
    (Node 0 [draws 5; attempts 3 0 1]) 0.

(** Two balls on the top row of the interior with one free cell between
    them; the first draws east and the second draws west. *)
Definition two_balls : State Tape :=
  mkState room5
    {[ BALL := mkEntity [(1, 1); (1, 3)] [0; 0] [0; 0] ]}
    (Node 0 [draws 7; attempts 0 0 0; attempts 2 2 2]) 0.

(** Two balls side by side, the second one at index 1 of the batch. *)
Definition adjacent : State Tape :=
  mkState room5
    {[ BALL := mkEntity [(1, 1); (1, 2)] [0; 0] [0; 0] ]}
    (Node 0 [draws 7; attempts 0 0 0; attempts 3 3 3]) 0.

(** A room without balls, with the player in the middle. *)
Definition no_balls (k : Tape) : State Tape :=
  mkState room5 {[ PLAYER := mkEntity [(2, 2)] [0] [0] ]} k 0.

(** Three actions: one that does nothing, one that turns the player to the
    next heading, and one that turns the player to a heading drawn from the
    key of the state. *)
Definition noop : State Tape → State Tape := λ state, state.

Definition set_direction (d : Z) (batch : Entity) : Entity :=
  mkEntity (position batch) (const d <$> direction batch) (tag batch).

Definition rotate_cw : State Tape → State Tape := λ state,
  mkState (grid state)
    (alter (λ batch,
              mkEntity (position batch)
                ((λ d, (d + 1) `mod` 4) <$> direction batch) (tag batch))
       PLAYER (entities state))
    (key state) (step_counter state).

Definition random_turn : State Tape → State Tape := λ state,
  mkState (grid state)
    (alter (set_direction (jax.randint (key state) 0 4)) PLAYER
       (entities state))
    (key state) (step_counter state).

(** An action that drops a ball next to the player. *)
Definition drop_ball : State Tape → State Tape := λ state,
  mkState (grid state)
    (<[BALL := mkEntity [(2, 3)] [0] [0]]> (entities state))
    (key state) (step_counter state).

End Examples.

(** ** A scripted sampler

    The samplers used to run [Room.reset] on a concrete room: the positions
    are the first free cells in row-major order, the headings are drawn from
    the key. *)
Module ScriptedSamplers.
Import Scripted.

Definition first_free (k : Tape) (grid : Grid) (n : nat)
    : option (list Position) :=
  if decide (n ≤ length (free_cells grid))%nat
  then Some (take n (free_cells grid))
  else None.

Definition drawn_headings (k : Tape) (n : nat) : list Z :=
  replicate n (jax.randint k 0 4).

(** They meet the contract of the samplers. *)
Definition scripted_samplers : GridSamplers Tape.
Proof.
  refine {| random_positions := first_free;
            random_directions := drawn_headings |}.
  - intros k g n ps. unfold first_free. case_decide as Hn; [|done].
    intros [= <-]. split_and!.
    + rewrite length_take. lia.
    + eapply sublist_NoDup; [|apply sublist_take].
      apply NoDup_filter. unfold cells.
      apply NoDup_bind; [| |apply NoDup_seq].
      * intros r1 r2 p _ _ Hp1 Hp2.
        apply list_elem_of_bind in Hp1 as (c1 & Hp1 & _).
        apply list_elem_of_bind in Hp2 as (c2 & Hp2 & _).
        apply list_elem_of_singleton in Hp1, Hp2. simplify_eq. lia.
      * intros r _. apply NoDup_bind; [| |apply NoDup_seq].
        -- intros c1 c2 p _ _ Hp1 Hp2.
           apply list_elem_of_singleton in Hp1, Hp2. simplify_eq. lia.
        -- intros c _. apply NoDup_singleton.
    + apply Forall_take, Forall_forall. intros p Hp.
      by apply list_elem_of_filter in Hp as [Hp _].
  - intros k g n. unfold first_free. case_decide as Hn.
    + split; [done|by eexists].
    + split; [by intros [? ?]|done].
  - intros k n. unfold drawn_headings. split.
    + apply length_replicate.
    + apply Forall_replicate. by apply jax.randint_range.
Defined.

End ScriptedSamplers.


(** * Properties *)

(** ** JAX primitives *)

Lemma getitem_0 {A : Type} (a : list A) : jax.getitem a 0 = a !! 0%nat.
Proof.
  unfold jax.getitem, jax.clamp. cbn [Z.ltb Z.compare].
  destruct a as [|x a]; [done|].
  replace (Z.to_nat _) with 0%nat; [done|]. rewrite length_cons. lia.
Qed.

Lemma getitem_is_Some {A : Type} (a : list A) (i : Z) :
  a ≠ [] → is_Some (jax.getitem a i).
Proof.
  intros Hne. unfold jax.getitem, jax.clamp.
  apply lookup_lt_is_Some.
  destruct a as [|x a]; [done|]. rewrite length_cons.
  destruct (i <? 0); lia.
Qed.

Lemma getitem_elem_of {A : Type} (a : list A) (i : Z) (x : A) :
  jax.getitem a i = Some x → x ∈ a.
Proof. unfold jax.getitem. apply list_elem_of_lookup_2. Qed.

Lemma grid_at_is_Some (g : Grid) (p : Position) :
  g ≠ [] → Forall (λ row, row ≠ []) g → is_Some (grid_at g p).
Proof.
  intros Hg Hrows. unfold grid_at.
  destruct (getitem_is_Some g p.1 Hg) as [row Hrow]. rewrite Hrow. cbn.
  apply getitem_is_Some.
  eapply Forall_forall in Hrows; [exact Hrows|].
  by eapply getitem_elem_of.
Qed.

(** ** Shapes *)

Lemma unstack_aligned ps ds ts :
  length ds = length ps → length ts = length ps →
  ∃ rows, unstack ps ds ts = Some rows.
Proof.
  revert ds ts. induction ps as [|p ps IH]; intros [|d ds] [|t ts] Hd Ht;
    try discriminate; cbn.
  - by eexists.
  - destruct (IH ds ts) as [rows ->]; [by injection Hd|by injection Ht|].
    cbn. by eexists.
Qed.

Lemma unstack_position ps ds ts rows :
  unstack ps ds ts = Some rows → ball_position <$> rows = ps.
Proof.
  revert ds ts rows.
  induction ps as [|p ps IH]; intros [|d ds] [|t ts] rows; cbn;
    try discriminate.
  - by intros [= <-].
  - destruct (unstack ps ds ts) as [rest|] eqn:Hrest; [|discriminate].
    cbn. intros [= <-]. cbn. f_equal. by eapply IH.
Qed.

Lemma unstack_length ps ds ts rows :
  unstack ps ds ts = Some rows → length rows = length ps.
Proof.
  intros H. apply unstack_position in H as <-. by rewrite length_fmap.
Qed.

(** ** The occupancy check *)

Section CanSpawnThere.
Context {Key : Type} `{!jax.PRNG Key}.
Implicit Types (state : State Key) (ball : Ball).

Lemma visit_None p l : foldl (visit p) None l = None.
Proof. by induction l. Qed.

Lemma visit_Some p l w :
  Forall (λ kb : Kind * Entity, position kb.2 ≠ []) l →
  foldl (visit p) (Some w) l
  = Some (w && forallb (λ kb, first_clear p kb.2) l).
Proof.
  revert w. induction l as [|[k b] l IH]; intros w Hl; cbn.
  - by rewrite andb_true_r.
  - apply Forall_cons in Hl as [Hb Hl]. cbn in Hb.
    rewrite getitem_0. unfold positions_equal, first_clear.
    destruct (position b) as [|q qs]; [done|]. cbn.
    rewrite IH by done. by rewrite andb_assoc.
Qed.

Lemma visit_is_Some p l acc r :
  foldl (visit p) acc l = Some r →
  Forall (λ kb : Kind * Entity, position kb.2 ≠ []) l.
Proof.
  revert acc. induction l as [|[k b] l IH]; intros acc Hr; [done|].
  cbn in Hr. constructor; [|by eapply IH].
  cbn. intros Hb. unfold visit in Hr at 2. cbn in Hr. rewrite Hb in Hr.
  destruct acc; cbn in Hr; by rewrite visit_None in Hr.
Qed.

(** A check that returns has found an entity at index 0 of every batch. *)
Lemma can_spawn_there_shape state ball r :
  _can_spawn_there state ball = Some r →
  ∀ k batch, entities state !! k = Some batch → position batch ≠ [].
Proof.
  unfold _can_spawn_there. intros Hr k batch Hk.
  destruct (grid_at _ _) as [cell|]; [|done]. cbn in Hr.
  apply visit_is_Some in Hr.
  eapply Forall_forall in Hr; [|by apply elem_of_map_to_list]. done.
Qed.

(** What the check computes: the cell under the ball is 0 and, for every
    kind, the entity at index 0 of its batch is elsewhere. *)
Lemma can_spawn_there_eq state ball :
  well_shaped state →
  ∃ cell, grid_at (grid state) (ball_position ball) = Some cell ∧
    _can_spawn_there state ball
    = Some ((cell =? 0) &&
            forallb (λ kb, first_clear (ball_position ball) kb.2)
                    (map_to_list (entities state))).
Proof.
  intros (Hg & Hrows & Hbatches).
  destruct (grid_at_is_Some (grid state) (ball_position ball) Hg Hrows)
    as [cell Hcell].
  exists cell. split; [done|].
  unfold _can_spawn_there. rewrite Hcell. cbn.
  apply visit_Some, Forall_forall. intros [k b] Hkb.
  apply elem_of_map_to_list in Hkb. by apply Hbatches in Hkb as [? _].
Qed.

Lemma can_spawn_there_total state ball :
  well_shaped state → is_Some (_can_spawn_there state ball).
Proof.
  intros Hwf. destruct (can_spawn_there_eq state ball Hwf) as (? & _ & ->).
  by eexists.
Qed.

(** An accepted position is a cell of value 0. *)
Lemma can_spawn_there_walkable state ball :
  _can_spawn_there state ball = Some true →
  grid_at (grid state) (ball_position ball) = Some 0.
Proof.
  unfold _can_spawn_there. intros Hr.
  destruct (grid_at _ _) as [cell|]; [|done]. cbn in Hr.
  pose proof (visit_is_Some _ _ _ _ Hr) as Hl.
  rewrite visit_Some in Hr by done.
  injection Hr as Hr. apply andb_true_iff in Hr as [Hc _].
  f_equal. lia.
Qed.

End CanSpawnThere.

(** ** The attempts of one ball *)

Lemma scan_app {C X Y : Type} (f : C → X → option (C * Y)) init xs1 xs2 :
  jax.scan f init (xs1 ++ xs2)
  = '(carry, ys1) ← jax.scan f init xs1;
    '(final, ys2) ← jax.scan f carry xs2;
    Some (final, ys1 ++ ys2).
Proof.
  revert init. induction xs1 as [|x xs1 IH]; intros init; cbn.
  - by destruct (jax.scan f init xs2) as [[? ?]|].
  - destruct (f init x) as [[carry y]|]; [|done]. cbn. rewrite IH.
    destruct (jax.scan f carry xs1) as [[carry' ys1]|]; [|done]. cbn.
    by destruct (jax.scan f carry' xs2) as [[? ?]|].
Qed.

Section TryMovements.
Context {Key : Type} `{!jax.PRNG Key}.
Implicit Types (state : State Key) (ball : Ball) (keys : list Key).

#[local] Arguments try_one_direction : simpl never.
#[local] Arguments candidate : simpl never.

Lemma try_one_direction_eq state ball pos found k can_move :
  _can_spawn_there state (candidate ball k) = Some can_move →
  try_one_direction state ball (pos, found) k
  = let next := if found then pos
                else if can_move then ball_position (candidate ball k)
                else pos in
    Some ((next, found || can_move), next).
Proof.
  unfold try_one_direction, candidate. intros ->. by destruct found.
Qed.

(** Once a move is found the carry no longer changes. *)
Lemma scan_found state ball pos keys :
  Forall (λ k, is_Some (_can_spawn_there state (candidate ball k))) keys →
  ∃ ys, jax.scan (try_one_direction state ball) (pos, true) keys
        = Some ((pos, true), ys).
Proof.
  induction 1 as [|k keys [r Hr] _ [ys IH]]; cbn; [by eexists|].
  rewrite (try_one_direction_eq _ _ _ _ _ _ Hr). cbn.
  rewrite IH. cbn. by eexists.
Qed.

(** While every attempt is rejected the carry stays at its start. *)
Lemma scan_rejected state ball pos keys :
  Forall (λ k, _can_spawn_there state (candidate ball k) = Some false) keys →
  ∃ ys, jax.scan (try_one_direction state ball) (pos, false) keys
        = Some ((pos, false), ys).
Proof.
  induction 1 as [|k keys Hr _ [ys IH]]; cbn; [by eexists|].
  rewrite (try_one_direction_eq _ _ _ _ _ _ Hr). cbn.
  rewrite IH. cbn. by eexists.
Qed.

(** The first attempt that passes fixes the result. *)
Lemma scan_first_pass state ball pos pre k post :
  Forall (λ k, _can_spawn_there state (candidate ball k) = Some false) pre →
  _can_spawn_there state (candidate ball k) = Some true →
  Forall (λ k, is_Some (_can_spawn_there state (candidate ball k))) post →
  ∃ ys, jax.scan (try_one_direction state ball) (pos, false)
                 (pre ++ k :: post)
        = Some ((ball_position (candidate ball k), true), ys).
Proof.
  intros Hpre Hk Hpost. rewrite scan_app.
  destruct (scan_rejected state ball pos pre Hpre) as [ys1 ->]. cbn.
  rewrite (try_one_direction_eq _ _ _ _ _ _ Hk). cbn.
  destruct (scan_found state ball (ball_position (candidate ball k))
              post Hpost) as [ys2 ->].
  cbn. by eexists.
Qed.

(** Whatever the draws, the carry ends at its start or at a candidate
    that passed the check. *)
Lemma scan_range state ball pos found keys pos' found' ys :
  jax.scan (try_one_direction state ball) (pos, found) keys
  = Some ((pos', found'), ys) →
  pos' = pos ∨
  ∃ k, k ∈ keys ∧
       _can_spawn_there state (candidate ball k) = Some true ∧
       pos' = ball_position (candidate ball k).
Proof.
  revert pos found ys.
  induction keys as [|k keys IH]; intros pos found ys; cbn.
  - intros [= <- <- <-]. by left.
  - destruct (_can_spawn_there state (candidate ball k)) as [r|] eqn:Hr.
    2:{ unfold try_one_direction. fold (candidate ball k).
        by rewrite Hr. }
    rewrite (try_one_direction_eq _ _ _ _ _ _ Hr). cbn.
    destruct (jax.scan _ _ keys) as [[[p1 f1] ys1]|] eqn:Hscan; [|done].
    cbn. intros [= <- <- <-].
    apply IH in Hscan as [->|(k' & Hk' & Hpass & ->)].
    + destruct found; [by left|]. destruct r; [|by left].
      right. exists k. split; [by left|done].
    + right. exists k'. split; [by right|done].
Qed.

Lemma try_movements_rejected state ball key :
  Forall (λ k, _can_spawn_there state (candidate ball k) = Some false)
         (jax.split key 3) →
  try_movements state ball key = Some (ball_position ball).
Proof.
  intros Hrej. unfold try_movements.
  by destruct (scan_rejected state ball (ball_position ball) _ Hrej)
    as [ys ->].
Qed.

Lemma try_movements_first_pass state ball key pre k post :
  jax.split key 3 = pre ++ k :: post →
  Forall (λ k, _can_spawn_there state (candidate ball k) = Some false) pre →
  _can_spawn_there state (candidate ball k) = Some true →
  Forall (λ k, is_Some (_can_spawn_there state (candidate ball k))) post →
  try_movements state ball key = Some (ball_position (candidate ball k)).
Proof.
  intros Hsplit Hpre Hk Hpost. unfold try_movements. rewrite Hsplit.
  by destruct (scan_first_pass state ball (ball_position ball)
                 pre k post Hpre Hk Hpost) as [ys ->].
Qed.

Lemma try_movements_range state ball key pos' :
  try_movements state ball key = Some pos' →
  pos' = ball_position ball ∨
  ∃ k, k ∈ jax.split key 3 ∧
       _can_spawn_there state (candidate ball k) = Some true ∧
       pos' = ball_position (candidate ball k).
Proof.
  unfold try_movements.
  destruct (jax.scan _ _ _) as [[[p f] ys]|] eqn:Hscan; [|done].
  cbn. intros [= <-]. by eapply scan_range.
Qed.

Lemma scan_total state ball carry keys :
  well_shaped state →
  is_Some (jax.scan (try_one_direction state ball) carry keys).
Proof.
  intros Hwf. revert carry.
  induction keys as [|k keys IH]; intros [pos found]; cbn; [by eexists|].
  destruct (can_spawn_there_total state (candidate ball k) Hwf) as [r Hr].
  rewrite (try_one_direction_eq _ _ _ _ _ _ Hr). cbn.
  destruct (IH (if found then pos
                else if r then ball_position (candidate ball k) else pos,
                found || r)) as [[c ys] ->].
  cbn. by eexists.
Qed.

Lemma try_movements_total state ball key :
  well_shaped state → is_Some (try_movements state ball key).
Proof.
  intros Hwf. unfold try_movements.
  destruct (scan_total state ball (ball_position ball, false)
              (jax.split key 3) Hwf) as [[[p f] ys] ->].
  cbn. by eexists.
Qed.

End TryMovements.

(** ** The pass over the balls *)

Lemma vmap_Some {A B C : Type} (f : A → B → option C) xs ys zs :
  jax.vmap f xs ys = Some zs ↔
  length xs = length ys ∧
  Forall2 (λ xy z, f xy.1 xy.2 = Some z) (zip xs ys) zs.
Proof.
  unfold jax.vmap. destruct (decide (length xs = length ys)) as [Hlen|Hlen].
  - rewrite mapM_Some. by split; [|intros [_ ?]].
  - by split; [|intros [? _]].
Qed.

Lemma vmap_lookup {A B C : Type} (f : A → B → option C) xs ys zs i x y :
  jax.vmap f xs ys = Some zs →
  xs !! i = Some x → ys !! i = Some y →
  ∃ z, zs !! i = Some z ∧ f x y = Some z.
Proof.
  intros [_ Hall]%vmap_Some Hx Hy.
  assert (zip xs ys !! i = Some (x, y)) as Hxy.
  { apply lookup_zip_with_Some. eauto. }
  destruct (Forall2_lookup_l _ _ _ _ _ Hall Hxy) as (z & Hz & Hf).
  eauto.
Qed.

Section UpdateBalls.
Context {Key : Type} `{!jax.PRNG Key}.
Implicit Types (state : State Key) (balls : Entity).

Lemma pass_keys_length state balls :
  length (pass_keys state balls) = S (length (position balls)).
Proof. unfold pass_keys. rewrite jax.split_length. lia. Qed.

(** The result of a pass that returns, spelled out. *)
Lemma update_balls_inv state balls state' :
  entities state !! BALL = Some balls →
  update_balls state = Some state' →
  ∃ rows new_position key0,
    unstack (position balls) (direction balls) (tag balls) = Some rows ∧
    jax.vmap (try_movements state) rows (drop 1 (pass_keys state balls))
    = Some new_position ∧
    pass_keys state balls !! 0%nat = Some key0 ∧
    state' = replace_key
               (set_balls state (replace_position balls new_position)) key0.
Proof.
  intros Hballs. unfold update_balls. rewrite Hballs.
  fold (pass_keys state balls).
  destruct (unstack _ _ _) as [rows|] eqn:Hrows; [|done]. cbn.
  destruct (jax.vmap _ _ _) as [new_position|] eqn:Hnp; [|done]. cbn.
  rewrite getitem_0.
  destruct (pass_keys state balls !! 0%nat) as [key0|] eqn:Hkey0; [|done].
  cbn. intros [= <-]. by exists rows, new_position, key0.
Qed.

(** On a state without balls the pass is the identity. *)
Lemma update_balls_no_balls state :
  entities state !! BALL = None → update_balls state = Some state.
Proof. unfold update_balls. by intros ->. Qed.

(** The pass returns on every state whose arrays can be indexed. *)
Lemma update_balls_total state :
  well_shaped state → is_Some (update_balls state).
Proof.
  intros Hwf. unfold update_balls.
  destruct (entities state !! BALL) as [balls|] eqn:Hballs; [|by eexists].
  fold (pass_keys state balls).
  pose proof Hwf as (_ & _ & Hbatches).
  destruct (Hbatches _ _ Hballs) as [_ [Hd Ht]].
  destruct (unstack_aligned _ _ _ Hd Ht) as [rows Hrows].
  rewrite Hrows. cbn.
  assert (is_Some (jax.vmap (try_movements state) rows
                     (drop 1 (pass_keys state balls)))) as [np Hnp].
  { unfold jax.vmap. rewrite decide_True.
    - apply mapM_is_Some, Forall_forall. intros [ball k] _.
      cbn. by apply try_movements_total.
    - rewrite length_drop, pass_keys_length.
      apply unstack_length in Hrows. lia. }
  rewrite Hnp. cbn. rewrite getitem_0.
  destruct (pass_keys state balls) as [|key0 ?] eqn:Hkeys.
  - pose proof (pass_keys_length state balls) as Hl.
    by rewrite Hkeys in Hl.
  - cbn. by eexists.
Qed.

(** The element and the sub-key that decide the new position of the ball
    at index [i]. *)
Lemma update_balls_lookup state balls state' rows i ball k :
  entities state !! BALL = Some balls →
  update_balls state = Some state' →
  unstack (position balls) (direction balls) (tag balls) = Some rows →
  rows !! i = Some ball →
  pass_keys state balls !! S i = Some k →
  ∃ balls' pos',
    entities state' !! BALL = Some balls' ∧
    position balls' !! i = Some pos' ∧
    try_movements state ball k = Some pos'.
Proof.
  intros Hballs Hupd Hrows Hball Hk.
  destruct (update_balls_inv _ _ _ Hballs Hupd)
    as (rows' & np & key0 & Hrows' & Hnp & _ & ->).
  rewrite Hrows in Hrows'. injection Hrows' as <-.
  assert (drop 1 (pass_keys state balls) !! i = Some k) as Hk'.
  { by rewrite lookup_drop. }
  destruct (vmap_lookup _ _ _ _ _ _ _ Hnp Hball Hk') as (pos' & Hpos' & Hf).
  exists (replace_position balls np), pos'. cbn.
  by rewrite lookup_insert_eq.
Qed.

End UpdateBalls.

Lemma well_shapedb_sound {Key : Type} (state : State Key) :
  well_shapedb state = true → well_shaped state.
Proof.
  unfold well_shapedb, well_shaped.
  rewrite !andb_true_iff, !forallb_forall, negb_true_iff, bool_decide_eq_false.
  intros [[Hg Hrows] Hbatches]. split_and!; [done| |].
  - apply Forall_forall. intros row Hrow%list_elem_of_In%Hrows.
    by apply negb_true_iff, bool_decide_eq_false in Hrow.
  - intros k batch Hk%elem_of_map_to_list%list_elem_of_In%Hbatches.
    cbn in Hk.
    rewrite !andb_true_iff, negb_true_iff, bool_decide_eq_false,
      !bool_decide_eq_true in Hk.
    unfold aligned. tauto.
Qed.

(** ** The claims about the ball pass *)

Section StochasticMover.
Context {Key : Type} `{!jax.PRNG Key}.
Implicit Types (state : State Key) (balls : Entity) (ball : Ball).

(** C4.  Bounded-attempt fallback: when the three attempts of the ball at
    index [i] are all rejected by the occupancy check, the pass returns
    and leaves that ball where it was. *)
Theorem bounded_attempt_fallback state balls rows i ball k :
  well_shaped state →
  entities state !! BALL = Some balls →
  unstack (position balls) (direction balls) (tag balls) = Some rows →
  rows !! i = Some ball →
  pass_keys state balls !! S i = Some k →
  Forall (λ a, _can_spawn_there state (candidate ball a) = Some false)
         (jax.split k 3) →
  ∃ state' balls',
    update_balls state = Some state' ∧
    entities state' !! BALL = Some balls' ∧
    position balls !! i = Some (ball_position ball) ∧
    position balls' !! i = Some (ball_position ball).
Proof.
  intros Hwf Hballs Hrows Hball Hk Hrej.
  destruct (update_balls_total state Hwf) as [state' Hupd].
  destruct (update_balls_lookup _ _ _ _ _ _ _ Hballs Hupd Hrows Hball Hk)
    as (balls' & pos' & Hballs' & Hpos' & Htry).
  rewrite (try_movements_rejected _ _ _ Hrej) in Htry.
  injection Htry as <-.
  exists state', balls'. split_and!; try done.
  rewrite <- (unstack_position _ _ _ _ Hrows), list_lookup_fmap.
  by rewrite Hball.
Qed.

(** C5.  First passing candidate: when the attempts before attempt [a] of
    the ball at index [i] are rejected and attempt [a] passes, the pass
    returns and puts the ball on the candidate of attempt [a], whatever
    the attempts after it draw. *)
Theorem first_passing_attempt_accepted state balls rows i ball k pre a post :
  well_shaped state →
  entities state !! BALL = Some balls →
  unstack (position balls) (direction balls) (tag balls) = Some rows →
  rows !! i = Some ball →
  pass_keys state balls !! S i = Some k →
  jax.split k 3 = pre ++ a :: post →
  Forall (λ a', _can_spawn_there state (candidate ball a') = Some false)
         pre →
  _can_spawn_there state (candidate ball a) = Some true →
  ∃ state' balls',
    update_balls state = Some state' ∧
    entities state' !! BALL = Some balls' ∧
    position balls' !! i
    = Some (translate (ball_position ball) (jax.randint a 0 4)).
Proof.
  intros Hwf Hballs Hrows Hball Hk Hsplit Hpre Ha.
  destruct (update_balls_total state Hwf) as [state' Hupd].
  destruct (update_balls_lookup _ _ _ _ _ _ _ Hballs Hupd Hrows Hball Hk)
    as (balls' & pos' & Hballs' & Hpos' & Htry).
  rewrite (try_movements_first_pass _ _ _ _ _ _ Hsplit Hpre Ha) in Htry.
  - injection Htry as <-. by exists state', balls'.
  - apply Forall_forall. intros a' _. by apply can_spawn_there_total.
Qed.

End StochasticMover.

Lemma bounded_attempt_fallback_witness :
  ∃ state' balls',
    update_balls Examples.boxed = Some state' ∧
    entities state' !! BALL = Some balls' ∧
    position (mkEntity [(1, 1)] [0] [0]) !! 0%nat = Some (1, 1) ∧
    position balls' !! 0%nat = Some (1, 1).
Proof.
  apply (bounded_attempt_fallback Examples.boxed
           (mkEntity [(1, 1)] [0] [0]) [mkBall (1, 1) 0 0] 0
           (mkBall (1, 1) 0 0) (Scripted.attempts 0 1 2)).
  - apply well_shapedb_sound. vm_compute. reflexivity.
  - vm_compute. reflexivity.
  - reflexivity.
  - reflexivity.
  - reflexivity.
  - repeat constructor; vm_compute; reflexivity.
Defined.

Lemma first_passing_attempt_accepted_witness :
  ∃ state' balls',
    update_balls Examples.corner = Some state' ∧
    entities state' !! BALL = Some balls' ∧
    position balls' !! 0%nat = Some (1, 2).
Proof.
  change (1, 2)
    with (translate (ball_position (mkBall (1, 1) 0 0))
            (jax.randint (Scripted.draws 0) 0 4)).
  apply (first_passing_attempt_accepted Examples.corner
           (mkEntity [(1, 1)] [0] [0]) [mkBall (1, 1) 0 0] 0
           (mkBall (1, 1) 0 0) (Scripted.attempts 3 0 1)
           [Scripted.draws 3] (Scripted.draws 0) [Scripted.draws 1]).
  - apply well_shapedb_sound. vm_compute. reflexivity.
  - vm_compute. reflexivity.
  - reflexivity.
  - reflexivity.
  - reflexivity.
  - reflexivity.
  - repeat constructor; vm_compute; reflexivity.
  - vm_compute. reflexivity.
Defined.

(** ** What a pass changes *)

Lemma scan_ext {C X Y : Type} (f g : C → X → option (C * Y)) init xs :
  (∀ c x, f c x = g c x) → jax.scan f init xs = jax.scan g init xs.
Proof.
  intros Hfg. revert init. induction xs as [|x xs IH]; intros init; cbn;
    [done|].
  rewrite Hfg. destruct (g init x) as [[c y]|]; [|done]. cbn. by rewrite IH.
Qed.

Section Frame.
Context {Key : Type} `{!jax.PRNG Key}.
Implicit Types (state other : State Key) (balls : Entity) (ball : Ball).

(** The check and the attempts read the grid and the entities of the state
    they are given, and nothing else of it. *)
Lemma can_spawn_there_snapshot state other ball :
  grid other = grid state → entities other = entities state →
  _can_spawn_there other ball = _can_spawn_there state ball.
Proof. unfold _can_spawn_there. by intros -> ->. Qed.

Lemma try_movements_snapshot state other ball k :
  grid other = grid state → entities other = entities state →
  try_movements other ball k = try_movements state ball k.
Proof.
  intros Hg He. unfold try_movements.
  rewrite (scan_ext (try_one_direction other ball)
             (try_one_direction state ball)); [done|].
  intros [pos found] a. unfold try_one_direction.
  by rewrite (can_spawn_there_snapshot state other).
Qed.

Lemma update_balls_moves state balls state' :
  entities state !! BALL = Some balls →
  update_balls state = Some state' →
  ∃ new_position key0,
    state' = replace_key
               (set_balls state (replace_position balls new_position)) key0 ∧
    pass_keys state balls !! 0%nat = Some key0 ∧
    Forall2 (moved_within state) (position balls) new_position.
Proof.
  intros Hballs Hupd.
  destruct (update_balls_inv _ _ _ Hballs Hupd)
    as (rows & np & key0 & Hrows & Hnp & Hkey0 & ->).
  exists np, key0. split_and!; [done..|].
  apply vmap_Some in Hnp as [Hlen Hall].
  rewrite <- (unstack_position _ _ _ _ Hrows).
  apply Forall2_fmap_l.
  assert (rows = (zip rows (drop 1 (pass_keys state balls))).*1) as Hfst.
  { symmetry. apply fst_zip. lia. }
  rewrite Hfst at 1. apply Forall2_fmap_l.
  eapply Forall2_impl; [exact Hall|].
  intros [ball k] p' Htry. cbn in *.
  apply try_movements_range in Htry as [->|(a & _ & Hpass & ->)];
    [by left|].
  right. by exists ball, a.
Qed.

(** C10.  Frame of the ball pass: on a state with a ball batch the pass
    returns whenever the arrays of the state can be indexed, and what it
    returns differs from what it received only in the positions of the ball
    batch and in the key: the grid, the step counter, every batch of another
    kind (player and goals among them) and the directions and tags of the
    balls are unchanged, and every ball is where it was or one cell away in
    one of the 4 headings. *)
Theorem update_balls_frame state balls :
  entities state !! BALL = Some balls →
  (well_shaped state → is_Some (update_balls state)) ∧
  ∀ state', update_balls state = Some state' →
    grid state' = grid state ∧
    step_counter state' = step_counter state ∧
    (∀ k, k ≠ BALL → entities state' !! k = entities state !! k) ∧
    ∃ balls',
      entities state' !! BALL = Some balls' ∧
      direction balls' = direction balls ∧
      tag balls' = tag balls ∧
      Forall2 (λ p p', p' = p ∨ ∃ d, 0 ≤ d < 4 ∧ p' = translate p d)
              (position balls) (position balls').
Proof.
  intros Hballs. split; [apply update_balls_total|].
  intros state' Hupd.
  destruct (update_balls_moves _ _ _ Hballs Hupd)
    as (np & key0 & -> & _ & Hmoves).
  cbn. split_and!; [done..| |].
  - intros k Hk. by rewrite lookup_insert_ne.
  - exists (replace_position balls np). rewrite lookup_insert_eq.
    split_and!; [done..|]. cbn.
    eapply Forall2_impl; [exact Hmoves|].
    intros p p' [->|(ball & a & _ & _ & ->)]; [by left|].
    right. exists (jax.randint a 0 4). split; [|done].
    by apply jax.randint_range.
Qed.

(** C6.  Snapshot of the ball pass: the new position of the ball at index
    [i] is the result of its three attempts run against the state the pass
    received, on its own element and its own sub-key; it is where the ball
    was or a candidate that the check accepted against that state, and any
    state with the same grid and entities gives the same result, so nothing
    that the pass computes for another ball enters it. *)
Theorem update_balls_reads_entry_snapshot state balls rows i ball k :
  entities state !! BALL = Some balls →
  unstack (position balls) (direction balls) (tag balls) = Some rows →
  rows !! i = Some ball →
  pass_keys state balls !! S i = Some k →
  (well_shaped state → is_Some (update_balls state)) ∧
  ∀ state', update_balls state = Some state' →
    ∃ balls' pos',
      entities state' !! BALL = Some balls' ∧
      position balls' !! i = Some pos' ∧
      try_movements state ball k = Some pos' ∧
      moved_within state (ball_position ball) pos' ∧
      ∀ other : State Key,
        grid other = grid state → entities other = entities state →
        try_movements other ball k = Some pos'.
Proof.
  intros Hballs Hrows Hball Hk. split; [apply update_balls_total|].
  intros state' Hupd.
  destruct (update_balls_lookup _ _ _ _ _ _ _ Hballs Hupd Hrows Hball Hk)
    as (balls' & pos' & Hballs' & Hpos' & Htry).
  exists balls', pos'. split_and!; [done..| |].
  - apply try_movements_range in Htry as [->|(a & _ & Hpass & ->)];
      [by left|].
    right. by exists ball, a.
  - intros other Hg He. by rewrite (try_movements_snapshot state other).
Qed.

End Frame.

Lemma update_balls_frame_witness :
  ∃ state', update_balls Examples.two_balls = Some state' ∧
    grid state' = grid Examples.two_balls ∧
    step_counter state' = step_counter Examples.two_balls ∧
    entities state' !! BALL = Some (mkEntity [(1, 2); (1, 2)] [0; 0] [0; 0]).
Proof.
  destruct (update_balls_frame Examples.two_balls
              (mkEntity [(1, 1); (1, 3)] [0; 0] [0; 0]))
    as [Htotal Hframe].
  - vm_compute. reflexivity.
  - destruct Htotal as [state' Hupd].
    { apply well_shapedb_sound. vm_compute. reflexivity. }
    exists state'. destruct (Hframe state' Hupd) as (Hg & Hs & _ & _).
    split_and!; [done..|].
    vm_compute in Hupd. injection Hupd as <-. vm_compute. reflexivity.
Defined.

Lemma update_balls_reads_entry_snapshot_witness :
  ∃ state' balls',
    update_balls Examples.two_balls = Some state' ∧
    entities state' !! BALL = Some balls' ∧
    position balls' !! 1%nat = Some (1, 2) ∧
    try_movements Examples.two_balls (mkBall (1, 3) 0 0)
      (Scripted.attempts 2 2 2) = Some (1, 2).
Proof.
  destruct (update_balls_reads_entry_snapshot Examples.two_balls
              (mkEntity [(1, 1); (1, 3)] [0; 0] [0; 0])
              [mkBall (1, 1) 0 0; mkBall (1, 3) 0 0] 1
              (mkBall (1, 3) 0 0) (Scripted.attempts 2 2 2))
    as [Htotal Hsnap]; [vm_compute; reflexivity|reflexivity..|].
  destruct Htotal as [state' Hupd].
  { apply well_shapedb_sound. vm_compute. reflexivity. }
  destruct (Hsnap state' Hupd) as (balls' & pos' & Hb & Hp & Ht & _).
  exists state', balls'. split_and!; [done..| |].
  - etrans; [exact Hp|]. etrans; [symmetry; exact Ht|].
    vm_compute. reflexivity.
  - vm_compute. reflexivity.
Defined.

(** ** The occupancy check against the whole store *)

Section Occupancy.
Context {Key : Type} `{!jax.PRNG Key}.
Implicit Types (state : State Key) (ball : Ball).

(** What [_can_spawn_there] decides on a state whose arrays can be
    indexed: the cell under the ball has value 0 and no batch has its
    entity of index 0 on that cell. *)
Lemma can_spawn_there_first_entities state ball :
  well_shaped state →
  _can_spawn_there state ball = Some true ↔
  grid_at (grid state) (ball_position ball) = Some 0 ∧
  ∀ k batch, entities state !! k = Some batch →
    position batch !! 0%nat ≠ Some (ball_position ball).
Proof.
  intros Hwf.
  destruct (can_spawn_there_eq state ball Hwf) as (cell & Hcell & ->).
  rewrite Hcell. split.
  - intros [= [Hc Hall]%andb_true_iff]. split; [f_equal; lia|].
    intros k batch Hk Hfirst.
    rewrite forallb_forall in Hall.
    apply elem_of_map_to_list, list_elem_of_In, Hall in Hk.
    unfold first_clear in Hk. cbn in Hk.
    destruct (position batch) as [|q qs]; [done|].
    injection Hfirst as ->. by rewrite bool_decide_eq_true_2 in Hk.
  - intros [[= ->] Hfirst]. f_equal. cbn.
    apply forallb_forall. intros [k batch] Hkb%list_elem_of_In.
    apply elem_of_map_to_list, Hfirst in Hkb.
    unfold first_clear. cbn.
    destruct (position batch) as [|q qs]; [done|].
    apply negb_true_iff, bool_decide_eq_false. intros ->. by apply Hkb.
Qed.

End Occupancy.

(** C1.  The occupancy check does not see the entities behind index 0 of a
    batch.  In [Examples.adjacent] the second ball is on (1, 2); the check
    accepts (1, 2) for the first ball, and the pass moves the first ball
    onto the second. *)
Theorem can_spawn_there_misses_later_entities :
  entities Examples.adjacent !! BALL
  = Some (mkEntity [(1, 1); (1, 2)] [0; 0] [0; 0]) ∧
  grid_at (grid Examples.adjacent) (1, 2) = Some 0 ∧
  _can_spawn_there Examples.adjacent (mkBall (1, 2) 0 0) = Some true ∧
  (entities <$> update_balls Examples.adjacent) ≫= (.!! BALL)
  = Some (mkEntity [(1, 2); (1, 2)] [0; 0] [0; 0]).
Proof. split_and!; vm_compute; reflexivity. Qed.

(** ** The action dispatcher *)

Section Dispatcher.
Context {Key : Type} `{!jax.PRNG Key}.
Implicit Types (state : State Key) (actions_set : list (State Key → State Key)).

Lemma switch_elem_of {A B : Type} (index : Z) (branches : list (A → B)) x y :
  jax.switch index branches x = Some y → ∃ f, f ∈ branches ∧ y = f x.
Proof.
  unfold jax.switch. destruct (branches !! _) as [f|] eqn:Hf; [|done].
  cbn. intros [= <-]. exists f. split; [|done].
  by eapply list_elem_of_lookup_2.
Qed.


End Dispatcher.



(** ** The occupancy invariant over the reachable states *)

Section Invariant.
Context {Key : Type} `{!jax.PRNG Key}.
Implicit Types (state : State Key) (actions_set : list (State Key → State Key)).

(** A ball that the pass moves lands on a cell of value 0, so the pass
    keeps every entity off the obstacles. *)
Lemma update_balls_obstacle state state' :
  no_entity_on_obstacle state →
  update_balls state = Some state' →
  no_entity_on_obstacle state'.
Proof.
  intros Hinv Hupd.
  destruct (entities state !! BALL) as [balls|] eqn:Hballs.
  2:{ rewrite update_balls_no_balls in Hupd by done. by injection Hupd as <-. }
  destruct (update_balls_moves _ _ _ Hballs Hupd)
    as (np & key0 & -> & _ & Hmoves).
  intros k batch p'. cbn. destruct (decide (k = BALL)) as [->|Hk].
  - rewrite lookup_insert_eq. intros [= <-]. cbn.
    intros (i & Hi)%list_elem_of_lookup.
    destruct (Forall2_lookup_r _ _ _ _ _ Hmoves Hi) as (p & Hp & Hmove).
    destruct Hmove as [->|(ball & a & Hpos & Hpass & ->)].
    + eapply Hinv; [exact Hballs|]. by eapply list_elem_of_lookup_2.
    + apply can_spawn_there_walkable in Hpass.
      unfold candidate in Hpass. cbn in Hpass. by rewrite Hpos in Hpass.
  - rewrite lookup_insert_ne by done. apply Hinv.
Qed.

(** C3, as the code has it.  Starting from a state in which no entity is on
    an obstacle cell, with actions that keep it so, no entity is on an
    obstacle cell in any state reached by steps of the stochastic
    transition. *)
Theorem obstacle_invariant_reachable actions_set init state :
  (∀ f s, f ∈ actions_set →
     no_entity_on_obstacle s → no_entity_on_obstacle (f s)) →
  no_entity_on_obstacle init →
  reachable actions_set init state →
  no_entity_on_obstacle state.
Proof.
  intros Hactions Hinit Hreach.
  induction Hreach as [|state action state' _ IH Hstep]; [done|].
  unfold stochastic_transition in Hstep.
  destruct (jax.switch action actions_set state) as [mid|] eqn:Hmid;
    [|done].
  cbn in Hstep.
  apply switch_elem_of in Hmid as (f & Hf & ->).
  eapply update_balls_obstacle; [|exact Hstep]. by apply Hactions.
Qed.

End Invariant.

(** C3, as the specification states it, fails.  [Examples.two_balls]
    satisfies the occupancy invariant; one step with the action that does
    nothing moves both balls onto the free cell between them, each attempt
    having been checked against the state the pass received. *)
Lemma occupancy_invariant_broken :
  occupancy_invariant Examples.two_balls ∧
  ∃ state',
    reachable [Examples.noop] Examples.two_balls state' ∧
    entities state' !! BALL
    = Some (mkEntity [(1, 2); (1, 2)] [0; 0] [0; 0]) ∧
    ¬ occupancy_invariant state'.
Proof.
  split.
  - split.
    + intros k1 b1 i1 k2 b2 i2 p Hk1 Hp1 Hk2 Hp2.
      unfold Examples.two_balls in Hk1, Hk2. cbn [entities] in Hk1, Hk2.
      apply lookup_singleton_Some in Hk1 as [<- <-].
      apply lookup_singleton_Some in Hk2 as [<- <-].
      split; [done|].
      destruct i1 as [|[|[|]]], i2 as [|[|[|]]]; cbn in *; congruence.
    + intros k b p Hk Hp.
    unfold Examples.two_balls in Hk. cbn [entities] in Hk.
    apply lookup_singleton_Some in Hk as [<- <-]. cbn in Hp.
      apply elem_of_cons in Hp as [->|Hp]; [reflexivity|].
      apply list_elem_of_singleton in Hp as ->. reflexivity.
  - destruct (stochastic_transition Examples.two_balls 0 [Examples.noop])
      as [state'|] eqn:Hstep; [|by vm_compute in Hstep].
    exists state'.
    assert (entities state' !! BALL
            = Some (mkEntity [(1, 2); (1, 2)] [0; 0] [0; 0])) as Hballs.
    { vm_compute in Hstep. injection Hstep as <-. vm_compute. reflexivity. }
    split_and!; [|done|].
    + eapply reachable_step; [apply reachable_reset|exact Hstep].
    + intros [Hshared _].
      destruct (Hshared BALL _ 0%nat BALL _ 1%nat (1, 2) Hballs eq_refl
                  Hballs eq_refl) as [_ ?].
      discriminate.
Qed.

Lemma obstacle_invariant_reachable_witness :
  ∃ state',
    stochastic_transition Examples.two_balls 0 [Examples.noop] = Some state' ∧
    no_entity_on_obstacle state'.
Proof.
  destruct (stochastic_transition Examples.two_balls 0 [Examples.noop])
    as [state'|] eqn:Hstep; [|by vm_compute in Hstep].
  exists state'. split; [done|].
  apply (obstacle_invariant_reachable [Examples.noop] Examples.two_balls).
  - intros f s ->%list_elem_of_singleton. done.
  - intros k b p Hk Hp.
    unfold Examples.two_balls in Hk. cbn [entities] in Hk.
    apply lookup_singleton_Some in Hk as [<- <-]. cbn in Hp.
    apply elem_of_cons in Hp as [->|Hp]; [reflexivity|].
    apply list_elem_of_singleton in Hp as ->. reflexivity.
  - eapply reachable_step; [apply reachable_reset|exact Hstep].
Defined.

(** ** Randomness and the two transitions *)

Section Seed.
Context {Key : Type} `{!jax.PRNG Key}.
Implicit Types (state : State Key).
Implicit Types (actions_set : list (State Key → State Key)).

(** C7, as the code has it.  The dispatcher itself reads no randomness:
    when no action of the table lets the key influence the rest of its
    result, two states that differ only in their key are sent to two states
    that differ only in their key (or both calls fail, on an empty table). *)
Theorem deterministic_transition_seed_oblivious
    (s1 s2 : State Key) action actions_set :
  Forall seed_oblivious actions_set →
  same_but_key s1 s2 →
  option_Forall2 same_but_key
    (deterministic_transition s1 action actions_set)
    (deterministic_transition s2 action actions_set).
Proof.
  intros Hactions Hsame. unfold deterministic_transition, jax.switch.
  destruct (actions_set !! _) as [f|] eqn:Hf; cbn; constructor.
  eapply Forall_lookup_1 in Hactions; [|exact Hf]. by apply Hactions.
Qed.

(** C9, as the code has it.  The ball pass is the identity on a state
    without a ball batch, so the two transitions agree whenever the state
    that the selected action returns has no ball batch. *)
Theorem stochastic_is_deterministic_without_balls state action actions_set :
  (∀ next, deterministic_transition state action actions_set = Some next →
     entities next !! BALL = None) →
  stochastic_transition state action actions_set
  = deterministic_transition state action actions_set.
Proof.
  unfold stochastic_transition, deterministic_transition. intros Hnext.
  destruct (jax.switch action actions_set state) as [next|]; [|done].
  cbn. apply update_balls_no_balls. by apply Hnext.
Qed.

End Seed.

(** C7, as the specification states it, fails for an action table that
    holds an action reading the key: [Examples.random_turn] turns the player
    to a heading drawn from the key of the state. *)
Lemma deterministic_transition_seed_leak :
  same_but_key (Examples.no_balls (Scripted.draws 1))
               (Examples.no_balls (Scripted.draws 2)) ∧
  ¬ option_Forall2 same_but_key
      (deterministic_transition (Examples.no_balls (Scripted.draws 1)) 0
         [Examples.random_turn])
      (deterministic_transition (Examples.no_balls (Scripted.draws 2)) 0
         [Examples.random_turn]).
Proof.
  split; [done|].
  intros Hrel. unfold deterministic_transition in Hrel. cbn in Hrel.
  inversion Hrel as [r1 r2 (_ & Hent & _)|].
  apply (f_equal (.!! PLAYER)) in Hent. vm_compute in Hent. discriminate.
Qed.

Lemma deterministic_transition_seed_oblivious_witness :
  option_Forall2 same_but_key
    (deterministic_transition (Examples.no_balls (Scripted.draws 1)) 1
       [Examples.noop; Examples.rotate_cw])
    (deterministic_transition (Examples.no_balls (Scripted.draws 2)) 1
       [Examples.noop; Examples.rotate_cw]).
Proof.
  apply deterministic_transition_seed_oblivious.
  - apply Forall_cons. split; [by intros x y|].
    apply Forall_singleton. intros x y (Hg & He & Hs).
    unfold Examples.rotate_cw. split_and!; cbn; [done| |done].
    by rewrite He.
  - done.
Defined.

(** C9, as the specification states it, fails for an action table that
    holds an action adding a ball batch: the state has no ball, the action
    [Examples.drop_ball] adds one, and the pass that follows moves it and
    replaces the key. *)
Lemma stochastic_differs_when_action_adds_balls :
  entities (Examples.no_balls (Scripted.Node 0
              [Scripted.draws 9; Scripted.attempts 0 0 0])) !! BALL = None ∧
  stochastic_transition
    (Examples.no_balls (Scripted.Node 0
       [Scripted.draws 9; Scripted.attempts 0 0 0])) 0 [Examples.drop_ball]
  ≠ deterministic_transition
      (Examples.no_balls (Scripted.Node 0
         [Scripted.draws 9; Scripted.attempts 0 0 0])) 0 [Examples.drop_ball].
Proof.
  split; [vm_compute; reflexivity|].
  intros Heq. apply (f_equal (fmap key)) in Heq.
  vm_compute in Heq. discriminate.
Qed.

Lemma stochastic_is_deterministic_without_balls_witness :
  stochastic_transition (Examples.no_balls (Scripted.draws 1)) 1
    [Examples.noop; Examples.rotate_cw]
  = deterministic_transition (Examples.no_balls (Scripted.draws 1)) 1
      [Examples.noop; Examples.rotate_cw].
Proof.
  apply stochastic_is_deterministic_without_balls.
  intros next Hnext. vm_compute in Hnext. injection Hnext as <-.
  vm_compute. reflexivity.
Defined.

(** ** Room.reset *)

Section Reset.
Context {Key : Type} `{!jax.PRNG Key} {samplers : GridSamplers Key}.
Context {Observation : Type}.
Implicit Types (self : @Room.Room Key Observation) (key : Key).

(** C8.  The first timestep.  [reset] returns on every key when the grid
    of the room has two free cells, and the timestep it returns has step
    index 0, step type ONGOING, reward 0 and the no-op action, carries the
    observation of its own state, and holds a state whose player and goal
    are the two positions, distinct and on free cells, that
    [random_positions] drew with the second sub-key. *)
Theorem reset_initial_timestep self key :
  ((2 ≤ length (free_cells (Room.cache_grid (Room.cache self))))%nat →
   is_Some (Room.reset self key)) ∧
  ∀ ts, Room.reset self key = Some ts →
    Room.t ts = 0 ∧
    Room.step_type ts = Room.ONGOING ∧
    Room.reward ts = 0%Q ∧
    Room.action ts = Room.NOOP ∧
    Room.observation ts = Room.Room_observation self (Room.state ts) ∧
    ∃ k0 k1 k2 goal,
      jax.split key 3 = [k0; k1; k2] ∧
      Room.key (Room.state ts) = k0 ∧
      random_positions k1 (Room.cache_grid (Room.cache self)) 2
      = Some [Room.player_position (Room.player (Room.state ts)); goal] ∧
      Room.goal_position (Room.goals (Room.state ts)) = [goal] ∧
      Room.player_direction (Room.player (Room.state ts))
      = random_directions k2 1 ∧
      Room.player_position (Room.player (Room.state ts)) ≠ goal.
Proof.
  unfold Room.reset.
  pose proof (jax.split_length key 3) as Hlen.
  destruct (jax.split key 3) as [|k0 [|k1 [|k2 [|]]]]; try discriminate.
  clear Hlen. split.
  - intros Hfree.
    destruct (proj2 (random_positions_enough k1 _ 2) Hfree) as [ps Hps].
    rewrite Hps. cbn.
    apply random_positions_sound in Hps as (Hlen & _ & _).
    destruct ps as [|p0 [|p1 [|]]]; try discriminate.
    cbn. by eexists.
  - intros ts.
    destruct (random_positions k1 _ 2) as [ps|] eqn:Hps; [|done]. cbn.
    pose proof (random_positions_sound _ _ _ _ Hps) as (Hlen & Hnodup & _).
    destruct ps as [|p0 [|p1 [|]]]; try discriminate.
    cbn. intros [= <-]. cbn. split_and!; [done..|].
    exists k0, k1, k2, p1. split_and!; [done..|].
    apply NoDup_cons in Hnodup as [Hp0 _]. set_solver.
Qed.

End Reset.

Lemma reset_initial_timestep_witness :
  ∃ ts,
    Room.reset (samplers := ScriptedSamplers.scripted_samplers)
      (Room.mkRoom 100 (λ _ _, tt) (Room.mkRenderingCache Examples.room5))
      (Scripted.Node 0 [Scripted.draws 1; Scripted.draws 2; Scripted.draws 3])
    = Some ts ∧
    Room.t ts = 0 ∧
    Room.step_type ts = Room.ONGOING ∧
    Room.player_position (Room.player (Room.state ts)) = (1, 1) ∧
    Room.goal_position (Room.goals (Room.state ts)) = [(1, 2)].
Proof.
  destruct (reset_initial_timestep (samplers := ScriptedSamplers.scripted_samplers)
              (Room.mkRoom 100 (λ _ _, tt)
                 (Room.mkRenderingCache Examples.room5))
              (Scripted.Node 0
                 [Scripted.draws 1; Scripted.draws 2; Scripted.draws 3]))
    as [Htotal Hts].
  destruct Htotal as [ts Hreset]; [vm_compute; lia|].
  exists ts. destruct (Hts ts Hreset) as (Ht & Hst & _).
  split_and!; [done..| |].
  - vm_compute in Hreset. injection Hreset as <-. reflexivity.
  - vm_compute in Hreset. injection Hreset as <-. reflexivity.
Defined.

(** * Further properties of the transitions *)

(** ** What the occupancy check accepts, and when it returns *)

Section CheckBehaviour.
Context {Key : Type} `{!jax.PRNG Key}.
Implicit Types (state : State Key) (ball : Ball).

(** An accepted position is away from the entity at index 0 of every
    batch. *)
Lemma can_spawn_there_first_away state ball k batch :
  _can_spawn_there state ball = Some true →
  entities state !! k = Some batch →
  ∃ q, position batch !! 0%nat = Some q ∧ q ≠ ball_position ball.
Proof.
  intros Hr Hk.
  pose proof (can_spawn_there_shape _ _ _ Hr k batch Hk) as Hne.
  unfold _can_spawn_there in Hr.
  destruct (grid_at _ _) as [cell|]; [|done]. cbn in Hr.
  pose proof (visit_is_Some _ _ _ _ Hr) as Hl.
  rewrite visit_Some in Hr by done.
  injection Hr as [_ Hall]%andb_true_iff.
  rewrite forallb_forall in Hall.
  apply elem_of_map_to_list, list_elem_of_In, Hall in Hk.
  unfold first_clear in Hk. cbn in Hk.
  destruct (position batch) as [|q qs]; [done|].
  exists q. split; [done|].
  by apply negb_true_iff, bool_decide_eq_false in Hk.
Qed.

(** X1.  [_can_spawn_there] answers True exactly when the cell under the
    ball has value 0 and every batch of the store has an entity at index 0
    that stands on another cell. *)
Theorem can_spawn_there_accepts_iff state ball :
  _can_spawn_there state ball = Some true ↔
  grid_at (grid state) (ball_position ball) = Some 0 ∧
  ∀ k batch, entities state !! k = Some batch →
    ∃ q, position batch !! 0%nat = Some q ∧ q ≠ ball_position ball.
Proof.
  split.
  - intros Hr. split; [by apply can_spawn_there_walkable|].
    intros k batch. by apply can_spawn_there_first_away.
  - intros [Hcell Hfirst]. unfold _can_spawn_there. rewrite Hcell. cbn.
    rewrite visit_Some.
    + f_equal. apply forallb_forall. intros [k batch] Hkb%list_elem_of_In.
      apply elem_of_map_to_list, Hfirst in Hkb as (q & Hq & Hne).
      unfold first_clear. cbn.
      destruct (position batch) as [|q' qs]; [done|].
      injection Hq as ->. by apply negb_true_iff, bool_decide_eq_false.
    + apply Forall_forall. intros [k batch] Hkb.
      apply elem_of_map_to_list, Hfirst in Hkb as (q & Hq & _).
      cbn. by intros Hnil; rewrite Hnil in Hq.
Qed.

(** X2.  [_can_spawn_there] returns an answer exactly when the grid can be
    indexed at the ball and no batch of the store is empty: one empty batch
    of any kind makes the check fail, wherever the ball is. *)
Theorem can_spawn_there_returns_iff state ball :
  is_Some (_can_spawn_there state ball) ↔
  is_Some (grid_at (grid state) (ball_position ball)) ∧
  ∀ k batch, entities state !! k = Some batch → position batch ≠ [].
Proof.
  split.
  - intros [r Hr]. split; [|by eapply can_spawn_there_shape].
    unfold _can_spawn_there in Hr.
    destruct (grid_at _ _) as [cell|]; [by eexists|done].
  - intros [[cell Hcell] Hne]. unfold _can_spawn_there. rewrite Hcell. cbn.
    rewrite visit_Some; [by eexists|].
    apply Forall_forall. intros [k batch] Hkb%elem_of_map_to_list.
    by eapply Hne.
Qed.

End CheckBehaviour.

(** ** The dispatcher on indices in range and on an empty table *)

Section DispatcherBehaviour.
Context {Key : Type} `{!jax.PRNG Key}.
Implicit Types (state : State Key).
Implicit Types (actions_set : list (State Key → State Key)).



End DispatcherBehaviour.


(** ** What the ball pass keeps, and where it puts a ball *)

Section PassBehaviour.
Context {Key : Type} `{!jax.PRNG Key}.
Implicit Types (state : State Key) (balls : Entity) (ball : Ball).
Implicit Types (actions_set : list (State Key → State Key)).

(** The pass keeps the kinds of the store. *)
Lemma update_balls_dom state state' :
  update_balls state = Some state' →
  dom (entities state') = dom (entities state).
Proof.
  intros Hupd.
  destruct (entities state !! BALL) as [balls|] eqn:Hballs.
  2:{ rewrite update_balls_no_balls in Hupd by done. by injection Hupd as <-. }
  destruct (update_balls_moves _ _ _ Hballs Hupd) as (np & key0 & -> & _).
  cbn. apply dom_insert_lookup_L. by eexists.
Qed.

(** The pass sends a state whose arrays can be indexed to one whose arrays
    can be indexed. *)
Lemma update_balls_keeps_shape state state' :
  well_shaped state → update_balls state = Some state' → well_shaped state'.
Proof.
  intros Hwf Hupd.
  destruct (entities state !! BALL) as [balls|] eqn:Hballs.
  2:{ rewrite update_balls_no_balls in Hupd by done.
      by injection Hupd as <-. }
  destruct (update_balls_moves _ _ _ Hballs Hupd)
    as (np & key0 & -> & _ & Hmoves).
  destruct Hwf as (Hg & Hrows & Hbatches).
  split_and!; [done..|]. cbn. intros k batch.
  destruct (decide (k = BALL)) as [->|Hk].
  - rewrite lookup_insert_eq. intros [= <-]. cbn.
    destruct (Hbatches _ _ Hballs) as [Hne [Hd Ht]].
    apply Forall2_length in Hmoves.
    unfold aligned. cbn. split_and!; [|lia..].
    intros ->. by destruct (position balls).
  - rewrite lookup_insert_ne by done. apply Hbatches.
Qed.

(** X5.  The pass keeps the shape of the state: the grid, the kinds of the
    store and the size of every batch are as before, so a state whose
    arrays can be indexed is sent to one whose arrays can be indexed. *)
Theorem update_balls_well_shaped state state' :
  well_shaped state →
  update_balls state = Some state' →
  well_shaped state' ∧
  dom (entities state') = dom (entities state) ∧
  ∀ k batch', entities state' !! k = Some batch' →
    ∃ batch, entities state !! k = Some batch ∧
             length (position batch') = length (position batch).
Proof.
  intros Hwf Hupd.
  split_and!; [by eapply update_balls_keeps_shape
              |by apply update_balls_dom|].
  intros k batch' Hk.
  destruct (entities state !! BALL) as [balls|] eqn:Hballs.
  2:{ rewrite update_balls_no_balls in Hupd by done.
      injection Hupd as <-. by exists batch'. }
  destruct (update_balls_moves _ _ _ Hballs Hupd)
    as (np & key0 & -> & _ & Hmoves).
  cbn in Hk. destruct (decide (k = BALL)) as [->|Hne].
  - rewrite lookup_insert_eq in Hk. injection Hk as <-.
    exists balls. split; [done|]. cbn.
    by apply Forall2_length in Hmoves.
  - rewrite lookup_insert_ne in Hk by done. by exists batch'.
Qed.



(** X7.  A pass in which every attempt of every ball is rejected returns
    the state it received with only the key replaced, by the first sub-key
    of the split. *)
Theorem update_balls_all_rejected state balls rows :
  well_shaped state →
  entities state !! BALL = Some balls →
  unstack (position balls) (direction balls) (tag balls) = Some rows →
  (∀ i ball k a,
     rows !! i = Some ball →
     pass_keys state balls !! S i = Some k →
     a ∈ jax.split k 3 →
     _can_spawn_there state (candidate ball a) = Some false) →
  ∃ key0,
    pass_keys state balls !! 0%nat = Some key0 ∧
    update_balls state = Some (replace_key state key0).
Proof.
  intros Hwf Hballs Hrows Hrej.
  destruct (update_balls_total state Hwf) as [state' Hupd].
  destruct (update_balls_inv _ _ _ Hballs Hupd)
    as (rows' & np & key0 & Hrows' & Hnp & Hkey0 & ->).
  rewrite Hrows in Hrows'. injection Hrows' as <-.
  exists key0. split; [done|]. rewrite Hupd. f_equal.
  assert (np = position balls) as ->.
  { pose proof Hnp as [Hlen Hall]%vmap_Some.
    apply Forall2_length in Hall as Hlen'. rewrite length_zip in Hlen'.
    pose proof (unstack_length _ _ _ _ Hrows) as Hlr.
    rewrite <- (unstack_position _ _ _ _ Hrows).
    apply (list_eq_same_length _ _ (length rows));
      [by rewrite length_fmap|lia|].
    intros i p' p Hi Hp' Hp.
    rewrite list_lookup_fmap in Hp.
    destruct (rows !! i) as [ball|] eqn:Hball; [|done].
    injection Hp as <-.
    destruct (lookup_lt_is_Some_2 (drop 1 (pass_keys state balls)) i)
      as [k Hk]; [lia|].
    destruct (vmap_lookup _ _ _ _ _ _ _ Hnp Hball Hk) as (z & Hz & Htry).
    rewrite Hp' in Hz. injection Hz as <-.
    rewrite lookup_drop in Hk.
    rewrite try_movements_rejected in Htry; [by injection Htry|].
    apply Forall_forall. intros a Ha. by eapply Hrej. }
  unfold replace_key, set_balls, replace_position. cbn.
  destruct balls as [ps ds ts]. cbn. by rewrite insert_id.
Qed.

(** X8.  A ball that the pass moves lands on a cell of value 0 on which no
    batch of the state that the pass received has its entity of index 0:
    the pass never moves a ball into an obstacle nor onto the first entity
    of a kind. *)
Theorem moved_ball_lands_on_clear_cell state balls state' balls' i p p' :
  entities state !! BALL = Some balls →
  update_balls state = Some state' →
  entities state' !! BALL = Some balls' →
  position balls !! i = Some p →
  position balls' !! i = Some p' →
  p' ≠ p →
  grid_at (grid state) p' = Some 0 ∧
  ∀ k batch, entities state !! k = Some batch →
    ∃ q, position batch !! 0%nat = Some q ∧ q ≠ p'.
Proof.
  intros Hballs Hupd Hballs' Hp Hp' Hmoved.
  destruct (update_balls_moves _ _ _ Hballs Hupd)
    as (np & key0 & -> & _ & Hmoves).
  cbn in Hballs'. rewrite lookup_insert_eq in Hballs'.
  injection Hballs' as <-. cbn in Hp'.
  pose proof (Forall2_lookup_lr _ _ _ _ _ _ Hmoves Hp Hp')
    as [->|(ball & a & Hpos & Hpass & ->)]; [done|].
  split.
  - apply can_spawn_there_walkable in Hpass.
    unfold candidate in Hpass. cbn in Hpass. by rewrite Hpos in Hpass.
  - intros k batch Hk.
    destruct (can_spawn_there_first_away _ _ _ _ Hpass Hk) as (q & Hq & Hne).
    unfold candidate in Hne. cbn in Hne. rewrite Hpos in Hne. by exists q.
Qed.

(** X9.  The stochastic transition returns what the deterministic
    transition returns, up to the positions of the balls and the key: same
    grid, same step counter, same kinds, and the same batch for every kind
    but the balls. *)
Theorem stochastic_transition_frame state action actions_set state' :
  stochastic_transition state action actions_set = Some state' →
  ∃ mid,
    deterministic_transition state action actions_set = Some mid ∧
    grid state' = grid mid ∧
    step_counter state' = step_counter mid ∧
    dom (entities state') = dom (entities mid) ∧
    ∀ k, k ≠ BALL → entities state' !! k = entities mid !! k.
Proof.
  unfold stochastic_transition, deterministic_transition. intros Hstep.
  destruct (jax.switch action actions_set state) as [mid|]; [|done].
  cbn in Hstep. exists mid. split; [done|].
  pose proof (update_balls_dom _ _ Hstep) as Hdom.
  destruct (entities mid !! BALL) as [balls|] eqn:Hballs.
  - destruct (update_balls_moves _ _ _ Hballs Hstep)
      as (np & key0 & -> & _).
    cbn in *. split_and!; [done..|].
    intros k Hk. by rewrite lookup_insert_ne.
  - rewrite update_balls_no_balls in Hstep by done. by injection Hstep as <-.
Qed.

End PassBehaviour.

Lemma update_balls_well_shaped_witness :
  ∃ state',
    update_balls Examples.two_balls = Some state' ∧
    well_shaped state' ∧
    dom (entities state') = dom (entities Examples.two_balls).
Proof.
  destruct (update_balls Examples.two_balls) as [state'|] eqn:Hupd;
    [|by vm_compute in Hupd].
  exists state'.
  destruct (update_balls_well_shaped Examples.two_balls state')
    as (Hwf & Hdom & _); [|exact Hupd|done].
  apply well_shapedb_sound. vm_compute. reflexivity.
Defined.


Lemma update_balls_all_rejected_witness :
  ∃ key0,
    pass_keys Examples.boxed (mkEntity [(1, 1)] [0] [0]) !! 0%nat
    = Some key0 ∧
    update_balls Examples.boxed = Some (replace_key Examples.boxed key0).
Proof.
  apply (update_balls_all_rejected Examples.boxed
           (mkEntity [(1, 1)] [0] [0]) [mkBall (1, 1) 0 0]).
  - apply well_shapedb_sound. vm_compute. reflexivity.
  - vm_compute. reflexivity.
  - reflexivity.
  - intros i ball k a Hball Hk Ha.
    destruct i as [|i]; [|done]. injection Hball as <-.
    injection Hk as <-.
    change (jax.split (Scripted.attempts 0 1 2) 3)
      with [Scripted.draws 0; Scripted.draws 1; Scripted.draws 2] in Ha.
    apply elem_of_cons in Ha as [->|Ha]; [vm_compute; reflexivity|].
    apply elem_of_cons in Ha as [->|Ha]; [vm_compute; reflexivity|].
    apply list_elem_of_singleton in Ha as ->. vm_compute. reflexivity.
Defined.

Lemma moved_ball_lands_on_clear_cell_witness :
  grid_at (grid Examples.corner) (1, 2) = Some 0 ∧
  ∀ k batch, entities Examples.corner !! k = Some batch →
    ∃ q, position batch !! 0%nat = Some q ∧ q ≠ (1, 2).
Proof.
  destruct (update_balls Examples.corner) as [state'|] eqn:Hupd;
    [|by vm_compute in Hupd].
  apply (moved_ball_lands_on_clear_cell Examples.corner
           (mkEntity [(1, 1)] [0] [0]) state'
           (mkEntity [(1, 2)] [0] [0]) 0 (1, 1) (1, 2)).
  - vm_compute. reflexivity.
  - exact Hupd.
  - vm_compute in Hupd. injection Hupd as <-. vm_compute. reflexivity.
  - reflexivity.
  - reflexivity.
  - discriminate.
Defined.

Lemma stochastic_transition_frame_witness :
  ∃ state' mid,
    stochastic_transition Examples.two_balls 0 [Examples.noop] = Some state' ∧
    deterministic_transition Examples.two_balls 0 [Examples.noop] = Some mid ∧
    grid state' = grid mid ∧
    step_counter state' = step_counter mid.
Proof.
  destruct (stochastic_transition Examples.two_balls 0 [Examples.noop])
    as [state'|] eqn:Hstep; [|by vm_compute in Hstep].
  destruct (stochastic_transition_frame Examples.two_balls 0
              [Examples.noop] state' Hstep)
    as (mid & Hmid & Hg & Hs & _).
  by exists state', mid.
Defined.

(** * The ball pass on a store with an empty batch *)

Section EmptyBatch.
Context {Key : Type} `{!jax.PRNG Key}.
Implicit Types (state : State Key) (balls : Entity) (ball : Ball).

(** With an empty batch in the store no attempt can be checked. *)
Lemma try_movements_empty_batch state ball key k batch :
  entities state !! k = Some batch → position batch = [] →
  try_movements state ball key = None.
Proof.
  intros Hk Hnil. unfold try_movements.
  pose proof (jax.split_length key 3) as Hlen.
  destruct (jax.split key 3) as [|a attempt_keys]; [done|]. cbn.
  unfold try_one_direction at 1.
  destruct (_can_spawn_there state _) as [r|] eqn:Hr; [|done].
  by destruct (can_spawn_there_shape _ _ _ Hr k batch Hk).
Qed.

(** X12.  When the store holds at least one ball and an empty batch of any
    kind, the pass fails: the first attempt of the first ball already
    indexes element 0 of the empty batch. *)
Theorem update_balls_empty_batch state balls k batch :
  entities state !! BALL = Some balls →
  position balls ≠ [] →
  entities state !! k = Some batch →
  position batch = [] →
  update_balls state = None.
Proof.
  intros Hballs Hne Hk Hnil. unfold update_balls. rewrite Hballs.
  fold (pass_keys state balls).
  destruct (unstack _ _ _) as [rows|] eqn:Hrows; [|done]. cbn.
  destruct (jax.vmap _ _ _) as [np|] eqn:Hnp; [|done].
  exfalso.
  pose proof (unstack_length _ _ _ _ Hrows) as Hlr.
  pose proof Hnp as [Hlen _]%vmap_Some.
  destruct rows as [|ball rows]; [by destruct (position balls)|].
  destruct (drop 1 (pass_keys state balls)) as [|a keys] eqn:Hkeys;
    [done|].
  destruct (vmap_lookup _ _ _ _ 0%nat ball a Hnp eq_refl eq_refl)
    as (z & _ & Htry).
  by rewrite (try_movements_empty_batch _ _ _ _ _ Hk Hnil) in Htry.
Qed.

End EmptyBatch.

Lemma update_balls_empty_batch_witness :
  update_balls
    (mkState Examples.room5
       {[ BALL := mkEntity [(1, 1)] [0] [0]; KEY := mkEntity [] [] [] ]}
       (Scripted.Node 0 [Scripted.draws 5; Scripted.attempts 0 0 0]) 0)
  = None.
Proof.
  apply (update_balls_empty_batch _ (mkEntity [(1, 1)] [0] [0])
           KEY (mkEntity [] [] [])).
  - vm_compute. reflexivity.
  - discriminate.
  - vm_compute. reflexivity.
  - reflexivity.
Defined.
